(* Shallow embedding of the financial helpers of firstrade_vs_sp500_app.py:
   xnpv, total_invested, lump_cagr and the synthetic cash-flow construction
   of sp_xirr_equivalent.

   Modelling conventions.
   - A datetime is its day ordinal, a Z; `(d2 - d1).days` is `d2 - d1`.
   - A Python float is an exact real number (rounding is not modelled).
     `float ** float` also models the float range: a result whose rounding
     overflows raises OverflowError, one that rounds to zero underflows to
     0.0. Other operations are exact; statements whose outcome could be
     changed by the float range or by rounding assume values clear of both
     (in_float_range, clear_of_range_ends, gain_ratio, loss_ratio).
   - The exponents `days / 365.0` and `1 / years` are exact rationals (Q),
     so that Python's rule for `float ** float` (negative base with a
     non-integral exponent gives a complex number, zero base with a
     negative exponent raises ZeroDivisionError) can be decided.
   - A value computed by the code is a float, a complex number (whose value
     is not tracked) or NaN; a call either returns a value or raises a
     Python exception. *)

From Stdlib Require Import ZArith QArith Qreals Reals Lra Lia List Sorted Permutation.
Import ListNotations.
Open Scope R_scope.

(** Python exceptions raised by the modelled code. *)
Inductive exc :=
| IndexError
| ZeroDivisionError
| OverflowError
| TypeError.

(** Outcome of a Python call: a value or a raised exception. *)
Inductive res (A : Type) :=
| Ok (a : A)
| Raise (e : exc).
Arguments Ok {A} a.
Arguments Raise {A} e.

(** Python numeric values: float, complex, or the float NaN. *)
Inductive num :=
| Fl (x : R)
| Cx
| NaN.

(** A cash flow `(date, amount)`. *)
Abbreviation cashflow := (Z * R)%type.
(** A price point `(date, price)` of the downloaded price series. *)
Abbreviation pricepoint := (Z * R)%type.

(** ** Python arithmetic on floats *)

(** Magnitudes at and above which a binary64 result rounds to infinity
    (2^1024 - 2^970), and at and below which it rounds to zero
    (2^-1075). *)
Definition float_overflow : R := IZR (2 ^ 1024 - 2 ^ 970).
Definition float_underflow : R := / IZR (2 ^ 1075).

(** The float that `pow` delivers for the exact power [v]: CPython's
    `float ** float` raises OverflowError when it overflows and returns
    0.0 when it underflows. *)
Definition py_pow_result (v : R) : res num :=
  if Rle_dec float_overflow (Rabs v) then Raise OverflowError
  else if Rle_dec (Rabs v) float_underflow then Ok (Fl 0)
  else Ok (Fl v).

(** `b ** y` for a float base [b] and an exponent [y]. *)
Definition py_pow (b : R) (y : Q) : res num :=
  if Rlt_dec 0 b then py_pow_result (Rpower b (Q2R y))
  else if Req_EM_T b 0 then
    (if Qlt_le_dec 0 y then Ok (Fl 0)
     else if Qeq_dec y 0 then Ok (Fl 1)
     else Raise ZeroDivisionError)
  else if (Z.modulo (Qnum y) (Zpos (Qden y)) =? 0)%Z
  then py_pow_result (powerRZ b (Qnum y / Zpos (Qden y)))
  else Ok Cx.

(** `a / v` for a float [a] and a numeric value [v]. *)
Definition py_div (a : R) (v : num) : res num :=
  match v with
  | Fl b => if Req_EM_T b 0 then Raise ZeroDivisionError else Ok (Fl (a / b))
  | Cx => Ok Cx
  | NaN => Ok NaN
  end.

(** `u + v`. *)
Definition py_add (u v : num) : num :=
  match u, v with
  | NaN, _ | _, NaN => NaN
  | Cx, _ | _, Cx => Cx
  | Fl a, Fl b => Fl (a + b)
  end.

(** `u - 1`. *)
Definition py_sub1 (u : num) : num :=
  match u with
  | Fl a => Fl (a - 1)
  | v => v
  end.

(** `float(u)`: a complex number is refused. *)
Definition py_float (u : num) : res num :=
  match u with
  | Cx => Raise TypeError
  | v => Ok v
  end.

(** ** xnpv *)

(** The generator sum of `xnpv`, term by term, starting from `acc`. *)
Fixpoint xnpv_sum (rate : R) (t0 : Z) (cfs : list cashflow) (acc : num)
  : res num :=
  match cfs with
  | [] => Ok acc
  | (date, cf) :: rest =>
      match py_pow (1 + rate) (inject_Z (date - t0) / inject_Z 365)%Q with
      | Raise e => Raise e
      | Ok p =>
          match py_div cf p with
          | Raise e => Raise e
          | Ok t => xnpv_sum rate t0 rest (py_add acc t)
          end
      end
  end.

(** `xnpv(rate, cashflows)`. *)
Definition xnpv (rate : R) (cashflows : list cashflow) : res num :=
  match cashflows with
  | [] => Raise IndexError
  | (t0, _) :: _ =>
      match xnpv_sum rate t0 cashflows (Fl 0) with
      | Raise e => Raise e
      | Ok s => py_float s
      end
  end.

(** ** total_invested *)

(** `sum(cf for _, cf in cashflows if cf < 0)`, from [acc]. *)
Fixpoint outflow_sum (cfs : list cashflow) (acc : R) : R :=
  match cfs with
  | [] => acc
  | (_, cf) :: rest =>
      if Rlt_dec cf 0 then outflow_sum rest (acc + cf) else outflow_sum rest acc
  end.

(** `total_invested(cashflows)`. *)
Definition total_invested (cashflows : list cashflow) : R :=
  - outflow_sum cashflows 0.

(** ** lump_cagr *)

(** `lump_cagr(start_val, end_val, start_date, end_date)`. *)
Definition lump_cagr (start_val end_val : R) (start_date end_date : Z)
  : res num :=
  let years := (inject_Z (end_date - start_date) / inject_Z 365)%Q in
  if Qeq_dec years 0 then Ok NaN
  else
    match py_div end_val (Fl start_val) with
    | Raise e => Raise e
    | Ok (Fl q) =>
        match py_pow q (/ years)%Q with
        | Raise e => Raise e
        | Ok v => Ok (py_sub1 v)
        end
    | Ok v => Ok v
    end.

(** ** sp_xirr_equivalent: the synthetic cash flows *)

(** The mask `prices.index <= date`. *)
Definition at_or_before (date : Z) (p : pricepoint) : bool := (fst p <=? date)%Z.

(** `prices[prices.index <= date].iloc[-1]`. *)
Definition price_at_or_before (prices : list pricepoint) (date : Z) : res R :=
  match rev (filter (at_or_before date) prices) with
  | (_, px) :: _ => Ok px
  | [] => Raise IndexError
  end.

(** `prices.iloc[-1]`. *)
Definition last_price (prices : list pricepoint) : res R :=
  match rev prices with
  | (_, px) :: _ => Ok px
  | [] => Raise IndexError
  end.

(** The loop `for date, amt in ...: if amt < 0: shares += (-amt) / px`. *)
Fixpoint accumulate_shares (prices : list pricepoint) (shares : R)
  (cfs : list cashflow) : res R :=
  match cfs with
  | [] => Ok shares
  | (date, amt) :: rest =>
      if Rlt_dec amt 0 then
        match price_at_or_before prices date with
        | Raise e => Raise e
        | Ok px => accumulate_shares prices (shares + (- amt) / px) rest
        end
      else accumulate_shares prices shares rest
  end.

(** Lines 89-98 of `sp_xirr_equivalent`: the list `synthetic` that is
    handed to `xirr`; [prices] is the series returned by
    `download_prices(TICKER, begin, end)`. *)
Definition synthetic_cashflows (cashflows : list cashflow)
  (prices : list pricepoint) : res (list cashflow) :=
  match cashflows with
  | [] => Raise IndexError
  | (b, a) :: _ =>
      let end_ := fst (last cashflows (b, a)) in
      match accumulate_shares prices 0 (removelast cashflows) with
      | Raise e => Raise e
      | Ok shares =>
          match last_price prices with
          | Raise e => Raise e
          | Ok pl => Ok (removelast cashflows ++ [(end_, shares * pl)])
          end
      end
  end.

(** ** portfolio_cagr and sp500_cagr_lumpsum *)

(** `portfolio_cagr(cashflows, current_value)`. *)
Definition portfolio_cagr (cashflows : list cashflow) (current_value : R)
  : res num :=
  let invested := total_invested cashflows in
  match cashflows with
  | [] => Raise IndexError
  | (d0, a0) :: _ =>
      lump_cagr invested current_value d0 (fst (last cashflows (d0, a0)))
  end.

(** `prices.iloc[0]`. *)
Definition first_price (prices : list pricepoint) : res R :=
  match prices with
  | (_, px) :: _ => Ok px
  | [] => Raise IndexError
  end.

(** `sp500_cagr_lumpsum(cashflows)`; [prices] is the series returned by
    `download_prices(TICKER, begin, end)`. *)
Definition sp500_cagr_lumpsum (cashflows : list cashflow)
  (prices : list pricepoint) : res num :=
  match cashflows with
  | [] => Raise IndexError
  | (b, a) :: _ =>
      let end_ := fst (last cashflows (b, a)) in
      match first_price prices with
      | Raise e => Raise e
      | Ok start_price =>
          match last_price prices with
          | Raise e => Raise e
          | Ok end_price => lump_cagr start_price end_price b end_
          end
      end
  end.

(** ** The cash flows built by the main panel *)

(** One step of `cflows.sort(key=lambda x: x[0])`: the entry goes after
    every entry with a date not later than its own (stability). *)
Fixpoint insert_by_date (c : cashflow) (l : list cashflow) : list cashflow :=
  match l with
  | [] => [c]
  | h :: t => if (fst c <? fst h)%Z then c :: h :: t else h :: insert_by_date c t
  end.

(** `cflows.sort(key=lambda x: x[0])`, a stable sort by date. *)
Definition sort_by_date (l : list cashflow) : list cashflow :=
  fold_left (fun acc c => insert_by_date c acc) l [].

(** Lines 134-137: the trade cash flows sorted by date, followed by the
    valuation entry `(valuation_dt, float(portfolio_now))`. *)
Definition build_cashflows (trades : list cashflow) (valuation_dt : Z)
  (portfolio_now : R) : list cashflow :=
  sort_by_date trades ++ [(valuation_dt, portfolio_now)].

(** ** Quantities named by the specification *)

(** `sum(amount for amount in series)`. *)
Definition amount_sum (cfs : list cashflow) : R :=
  fold_left (fun s c => s + snd c) cfs 0.

(** Sum of the magnitudes of the strictly negative amounts. *)
Fixpoint outflow_magnitude (cfs : list cashflow) : R :=
  match cfs with
  | [] => 0
  | c :: rest =>
      (if Rlt_dec (snd c) 0 then Rabs (snd c) else 0) + outflow_magnitude rest
  end.

(** The outflow entries of a list, in order. *)
Definition outflows (cfs : list cashflow) : list cashflow :=
  filter (fun c => if Rlt_dec (snd c) 0 then true else false) cfs.

(** A magnitude that `float ** float` delivers without overflowing or
    underflowing to 0.0. *)
Definition in_float_range (v : R) : Prop :=
  float_underflow < Rabs v < float_overflow.

(** Magnitudes between 2^-1000 and 2^1000: far enough inside the float
    range that a few roundings cannot carry them out of it. *)
Definition clear_of_range_ends (v : R) : Prop :=
  / IZR (2 ^ 1000) <= Rabs v <= IZR (2 ^ 1000).

(** The exact value of `(end_val / start_val) ** (1 / years)`. *)
Definition cagr_power (start_val end_val : R) (start_date end_date : Z) : R :=
  Rpower (end_val / start_val)
    (Q2R (/ (inject_Z (end_date - start_date) / inject_Z 365))%Q).

(** Ratios far from 1 and inside the float range: for such values of
    `end_val / start_val` and of the power, the roundings of `/`, `**` and
    `- 1` in lump_cagr can neither overflow nor turn the rate into 0.0 or
    -1.0. *)
Definition gain_ratio (v : R) : Prop :=
  1 + / IZR (2 ^ 40) <= v <= IZR (2 ^ 1000).


(** ** Helper lemmas *)

Lemma float_range_one : in_float_range 1.
Proof.
  unfold in_float_range. rewrite Rabs_R1. split.
  - assert (H : 1 < IZR (2 ^ 1075)) by (apply IZR_lt; vm_compute; reflexivity).
    unfold float_underflow.
    apply (Rmult_lt_reg_l (IZR (2 ^ 1075))); [lra|].
    rewrite Rinv_r by lra. lra.
  - unfold float_overflow. apply IZR_lt. vm_compute. reflexivity.
Qed.

Lemma py_pow_result_in_range (v : R) :
  in_float_range v -> py_pow_result v = Ok (Fl v).
Proof.
  intros [Hl Hh]. unfold py_pow_result.
  destruct (Rle_dec float_overflow (Rabs v)); [lra|].
  destruct (Rle_dec (Rabs v) float_underflow); [lra|reflexivity].
Qed.

Lemma in_float_range_between (v : R) :
  clear_of_range_ends v -> in_float_range v.
Proof.
  intros [Hl Hh]. unfold in_float_range, float_underflow, float_overflow.
  assert (H1 : 0 < IZR (2 ^ 1000)) by (apply IZR_lt; vm_compute; reflexivity).
  assert (H2 : IZR (2 ^ 1000) < IZR (2 ^ 1075)) by (apply IZR_lt; vm_compute; reflexivity).
  assert (H3 : IZR (2 ^ 1000) < IZR (2 ^ 1024 - 2 ^ 970))
    by (apply IZR_lt; vm_compute; reflexivity).
  split; [|lra].
  apply Rlt_le_trans with (/ IZR (2 ^ 1000)); [|exact Hl].
  apply Rinv_lt_contravar; [apply Rmult_lt_0_compat|]; lra.
Qed.

Lemma clear_of_range_ends_IZR (z : Z) :
  (z <> 0 /\ Z.abs z <= 2 ^ 1000)%Z -> clear_of_range_ends (IZR z).
Proof.
  intros [Hz Hb]. unfold clear_of_range_ends. rewrite <- abs_IZR.
  assert (H1 : 1 <= IZR (Z.abs z)) by (apply IZR_le; lia).
  assert (H2 : 1 < IZR (2 ^ 1000)) by (apply IZR_lt; vm_compute; reflexivity).
  split; [|apply IZR_le; exact Hb].
  apply Rle_trans with 1; [|exact H1].
  apply Rlt_le. rewrite <- Rinv_1.
  apply Rinv_lt_contravar; [rewrite Rmult_1_l|]; lra.
Qed.

Lemma py_pow_result_not_nan (v : R) : py_pow_result v <> Ok NaN.
Proof.
  unfold py_pow_result.
  destruct (Rle_dec _ _); [discriminate|].
  destruct (Rle_dec _ _); discriminate.
Qed.

Lemma py_pow_one (y : Q) : py_pow 1 y = Ok (Fl 1).
Proof.
  unfold py_pow. destruct (Rlt_dec 0 1) as [_|H]; [|lra].
  unfold Rpower. rewrite ln_1, Rmult_0_r, exp_0.
  apply py_pow_result_in_range, float_range_one.
Qed.

Lemma years_zero_iff (n : Z) :
  ((inject_Z n / inject_Z 365) == 0)%Q <-> n = 0%Z.
Proof.
  unfold Qeq, Qdiv, Qmult, Qinv; simpl.
  rewrite Z.mul_1_r. lia.
Qed.

Lemma xnpv_sum_rate0 (t0 : Z) (l : list cashflow) (acc : R) :
  xnpv_sum 0 t0 l (Fl acc) = Ok (Fl (fold_left (fun s c => s + snd c) l acc)).
Proof.
  revert acc. induction l as [|[d cf] rest IH]; intros acc; simpl.
  - reflexivity.
  - rewrite Rplus_0_r, py_pow_one. simpl.
    destruct (Req_EM_T 1 0) as [H|_]; [lra|].
    simpl. rewrite IH. do 3 f_equal. field.
Qed.

Lemma outflow_sum_magnitude (l : list cashflow) (acc : R) :
  outflow_sum l acc = acc - outflow_magnitude l.
Proof.
  revert acc. induction l as [|[d cf] rest IH]; intros acc; simpl.
  - lra.
  - destruct (Rlt_dec cf 0) as [H|H]; rewrite IH.
    + rewrite Rabs_left by exact H. lra.
    + lra.
Qed.

Lemma outflow_magnitude_nonneg (l : list cashflow) : 0 <= outflow_magnitude l.
Proof.
  induction l as [|[d cf] rest IH]; simpl.
  - lra.
  - destruct (Rlt_dec cf 0); [pose proof (Rabs_pos cf)|]; lra.
Qed.

(** ** Claims *)

(** C5: at rate 0 the present value of a non-empty series equals the
    plain sum of its amounts. *)
Theorem xnpv_rate_zero_is_sum (t0 : Z) (a : R) (rest : list cashflow) :
  xnpv 0 ((t0, a) :: rest) = Ok (Fl (amount_sum ((t0, a) :: rest))).
Proof.
  unfold xnpv, amount_sum. rewrite xnpv_sum_rate0. reflexivity.
Qed.

(** C6: with zero elapsed days, lump_cagr returns NaN. *)
Theorem lump_cagr_same_day_nan (v1 v2 : R) (d : Z) :
  lump_cagr v1 v2 d d = Ok NaN.
Proof.
  unfold lump_cagr.
  destruct (Qeq_dec _ 0) as [_|H]; [reflexivity|].
  exfalso. apply H. apply years_zero_iff. lia.
Qed.

(** C8: for v > 0 and distinct dates, lump_cagr v v d1 d2 is 0. *)
Theorem lump_cagr_no_growth (v : R) (d1 d2 : Z) :
  0 < v -> d1 <> d2 -> lump_cagr v v d1 d2 = Ok (Fl 0).
Proof.
  intros Hv Hd. unfold lump_cagr.
  destruct (Qeq_dec _ 0) as [H|_].
  - apply (proj1 (years_zero_iff _)) in H. lia.
  - simpl. destruct (Req_EM_T v 0) as [H|_]; [lra|].
    replace (v / v) with 1 by (field; lra).
    rewrite py_pow_one. simpl. f_equal. f_equal. lra.
Qed.

Lemma lump_cagr_no_growth_witness :
  0 < 1000 /\ (0 <> 365)%Z /\ lump_cagr 1000 1000 0 365 = Ok (Fl 0).
Proof.
  split; [lra|]. split; [discriminate|].
  apply lump_cagr_no_growth; [lra|discriminate].
Defined.

(** C9: total_invested is the sum of the magnitudes of the strictly
    negative amounts, and is therefore non-negative. *)
Theorem total_invested_magnitudes (cfs : list cashflow) :
  total_invested cfs = outflow_magnitude cfs /\ 0 <= total_invested cfs.
Proof.
  unfold total_invested. rewrite outflow_sum_magnitude.
  pose proof (outflow_magnitude_nonneg cfs). split; lra.
Qed.

(** ** Rate and growth-rate domain *)

Ltac decide_R :=
  repeat match goal with
  | |- context [Rlt_dec ?a ?b] => destruct (Rlt_dec a b); try (exfalso; lra)
  | |- context [Req_EM_T ?a ?b] => destruct (Req_EM_T a b); try (exfalso; lra)
  end.

Lemma py_pow_not_nan (b : R) (y : Q) : py_pow b y <> Ok NaN.
Proof.
  unfold py_pow.
  destruct (Rlt_dec 0 b); [apply py_pow_result_not_nan|].
  destruct (Req_EM_T b 0).
  - destruct (Qlt_le_dec 0 y); [discriminate|].
    destruct (Qeq_dec y 0); discriminate.
  - destruct (_ =? 0)%Z; [apply py_pow_result_not_nan|discriminate].
Qed.

(** A negative base raised to a whole number of years is a real power,
    within the float range. *)
Lemma py_pow_neg_whole_years (b : R) (k : Z) :
  b < 0 -> (k mod 365 = 0)%Z ->
  py_pow b (inject_Z k / inject_Z 365)%Q = py_pow_result (powerRZ b (k / 365)).
Proof.
  intros Hb Hk. unfold py_pow.
  destruct (Rlt_dec 0 b); [lra|].
  destruct (Req_EM_T b 0); [lra|].
  simpl. rewrite Z.mul_1_r, Hk. reflexivity.
Qed.

Lemma py_pow_zero_days (b : R) :
  py_pow b (inject_Z 0 / inject_Z 365)%Q = Ok (Fl 1).
Proof.
  unfold py_pow.
  destruct (Rlt_dec 0 b).
  - replace (Q2R (inject_Z 0 / inject_Z 365)) with 0
      by (unfold Q2R; simpl; rewrite Rmult_0_l; reflexivity).
    rewrite Rpower_O by exact r. apply py_pow_result_in_range, float_range_one.
  - destruct (Req_EM_T b 0); [reflexivity|]. simpl.
    apply py_pow_result_in_range, float_range_one.
Qed.

Lemma xnpv_sum_whole_years (r : R) (t0 : Z) (l : list cashflow) (acc : R) :
  1 + r < 0 ->
  Forall (fun c : cashflow => ((fst c - t0) mod 365 = 0)%Z /\
                   clear_of_range_ends (powerRZ (1 + r) ((fst c - t0) / 365)%Z)) l ->
  exists x, xnpv_sum r t0 l (Fl acc) = Ok (Fl x).
Proof.
  intros Hr Hl. revert acc.
  induction Hl as [|[d cf] rest [Hk Hrange] Hrest IH]; intros acc; simpl.
  - eauto.
  - simpl in Hk, Hrange. rewrite (py_pow_neg_whole_years _ _ Hr Hk).
    rewrite py_pow_result_in_range by (apply in_float_range_between, Hrange).
    simpl. destruct (Req_EM_T (powerRZ (1 + r) ((d - t0) / 365)) 0) as [H0|_].
    + exfalso. revert H0. apply powerRZ_NOR. lra.
    + apply IH.
Qed.

(** C3 (counterexample): at r = -2 the series [(day 0, -1000); (day 365,
    1100)] has an entry dated after the first, yet xnpv returns the ordinary
    float -2100: no InvalidRate failure is raised. *)
Lemma xnpv_below_minus_one_counterexample :
  -2 <= -1 /\ (0 < 365 - 0)%Z /\
  xnpv (-2) [(0%Z, -1000); (365%Z, 1100)] = Ok (Fl (-2100)).
Proof.
  split; [lra|]. split; [lia|].
  unfold xnpv, xnpv_sum.
  replace (1 + -2) with (-1) by lra.
  change (0 - 0)%Z with 0%Z. change (365 - 0)%Z with 365%Z.
  rewrite py_pow_zero_days.
  rewrite py_pow_neg_whole_years by (lra || reflexivity).
  replace (powerRZ (-1) (365 / 365)) with (IZR (-1)) by (simpl; lra).
  rewrite py_pow_result_in_range
    by (apply in_float_range_between, clear_of_range_ends_IZR; vm_compute; easy).
  unfold py_div. decide_R. simpl. f_equal. f_equal. field.
Qed.

(** C3 (amended): xnpv has no rate check and no InvalidRate failure; for
    r < -1 and a non-empty series whose entries all lie a whole number of
    365-day years from the first one, with every power (1 + r) ** years
    clear of the float range's ends, it returns a value and raises
    nothing. *)
Theorem xnpv_below_minus_one_whole_years (r : R) (cfs : list cashflow) :
  r < -1 -> cfs <> [] ->
  Forall (fun c : cashflow =>
            let k := (fst c - fst (hd (0%Z, 0%R) cfs))%Z in
            (k mod 365 = 0)%Z /\
            clear_of_range_ends (powerRZ (1 + r) (k / 365)%Z)) cfs ->
  exists v, xnpv r cfs = Ok v.
Proof.
  intros Hr Hne Hall. destruct cfs as [|[t0 a] rest]; [congruence|].
  simpl in Hall.
  destruct (xnpv_sum_whole_years r t0 ((t0, a) :: rest) 0) as [x Hx];
    [lra|exact Hall|].
  change (xnpv r ((t0, a) :: rest)) with
    (match xnpv_sum r t0 ((t0, a) :: rest) (Fl 0) with
     | Raise e => Raise e
     | Ok s => py_float s
     end).
  rewrite Hx. simpl. eauto.
Qed.

Lemma xnpv_below_minus_one_whole_years_witness :
  exists v, xnpv (-2) [(0%Z, -1000); (365%Z, 1100)] = Ok v.
Proof.
  apply xnpv_below_minus_one_whole_years.
  - lra.
  - discriminate.
  - simpl. replace (1 + -2) with (IZR (-1)) by lra.
    apply Forall_cons; [|apply Forall_cons; [|apply Forall_nil]]; simpl;
      (split; [reflexivity|]); try (rewrite Rmult_1_r);
      apply clear_of_range_ends_IZR; vm_compute; easy.
Defined.

(** C4 (counterexample): lump_cagr(-1000, 2000, day 0, day 365) is the
    float -3, not NaN. *)
Lemma lump_cagr_nonpositive_start_counterexample :
  -1000 <= 0 /\ (0 <> 365)%Z /\ lump_cagr (-1000) 2000 0 365 = Ok (Fl (-3)).
Proof.
  split; [lra|]. split; [discriminate|].
  unfold lump_cagr.
  destruct (Qeq_dec _ 0%Q) as [H|_];
    [apply (proj1 (years_zero_iff _)) in H; discriminate H|].
  unfold py_div. decide_R.
  replace (2000 / -1000) with (IZR (-2)) by field.
  unfold py_pow. decide_R. simpl.
  replace (IZR (-2) * 1) with (IZR (-2)) by lra.
  rewrite py_pow_result_in_range
    by (apply in_float_range_between, clear_of_range_ends_IZR; vm_compute; easy).
  simpl. f_equal. f_equal. lra.
Qed.

(** C4 (amended): lump_cagr has no guard on the start value; for a start
    value <= 0 and distinct dates it never returns NaN, and a zero start
    value raises ZeroDivisionError. *)
Theorem lump_cagr_nonpositive_start (s e : R) (d1 d2 : Z) :
  s <= 0 -> d1 <> d2 ->
  (s = 0 -> lump_cagr s e d1 d2 = Raise ZeroDivisionError) /\
  lump_cagr s e d1 d2 <> Ok NaN.
Proof.
  intros Hs Hd. unfold lump_cagr.
  destruct (Qeq_dec _ 0) as [H|_].
  { apply (proj1 (years_zero_iff _)) in H. lia. }
  simpl. destruct (Req_EM_T s 0) as [H0|H0].
  - split; [reflexivity|discriminate].
  - split; [intros; contradiction|].
    match goal with |- context [py_pow ?b ?y] =>
      destruct (py_pow b y) as [v|err] eqn:Hp; [|discriminate] end.
    destruct v; simpl; try discriminate.
    exfalso. exact (py_pow_not_nan _ _ Hp).
Qed.

Lemma lump_cagr_nonpositive_start_witness :
  (0 = 0 -> lump_cagr 0 2000 0 365 = Raise ZeroDivisionError) /\
  lump_cagr 0 2000 0 365 <> Ok NaN.
Proof.
  apply lump_cagr_nonpositive_start; [lra|discriminate].
Defined.

(** ** The synthetic series *)

(** The price lookups of `sp_xirr_equivalent` succeed: the downloaded
    series is non-empty and has a point at or before every non-final
    outflow date. *)
Definition prices_cover (prices : list pricepoint) (cfs : list cashflow)
  : Prop :=
  prices <> [] /\
  forall d a, In (d, a) (removelast cfs) -> a < 0 ->
    exists p, In p prices /\ (fst p <= d)%Z.

Lemma last_default_irrelevant {A} (l : list A) (x y : A) :
  l <> [] -> last l x = last l y.
Proof.
  induction l as [|a [|b l'] IH]; intros H; [congruence|reflexivity|].
  simpl. simpl in IH. apply IH. discriminate.
Qed.

Lemma price_at_or_before_some (prices : list pricepoint) (d : Z) :
  (exists p, In p prices /\ (fst p <= d)%Z) ->
  exists px, price_at_or_before prices d = Ok px.
Proof.
  intros [p [Hin Hle]]. unfold price_at_or_before.
  destruct (rev (filter (at_or_before d) prices)) as [|[d' px] rest] eqn:E; [|eauto].
  exfalso.
  assert (Hf : In p (filter (at_or_before d) prices)).
  { apply filter_In. split; [exact Hin|]. unfold at_or_before. apply Z.leb_le. exact Hle. }
  apply (proj1 (in_rev _ _)) in Hf. rewrite E in Hf. exact Hf.
Qed.

Lemma price_at_or_before_in (prices : list pricepoint) (d : Z) (px : R) :
  price_at_or_before prices d = Ok px -> exists d', In (d', px) prices.
Proof.
  unfold price_at_or_before.
  destruct (rev (filter (at_or_before d) prices)) as [|[d' px'] rest] eqn:E; intros H;
    [discriminate|].
  injection H as <-. exists d'.
  assert (Hr : In (d', px') (rev (filter (at_or_before d) prices)))
    by (rewrite E; left; reflexivity).
  apply (proj2 (in_rev _ _)), filter_In in Hr. tauto.
Qed.

Lemma last_price_some (prices : list pricepoint) :
  prices <> [] -> exists pl, last_price prices = Ok pl.
Proof.
  intros H. unfold last_price.
  destruct (rev prices) as [|[d px] rest] eqn:E; [|eauto].
  exfalso. apply H. apply (f_equal (@rev _)) in E.
  rewrite rev_involutive in E. exact E.
Qed.

Lemma last_price_in (prices : list pricepoint) (pl : R) :
  last_price prices = Ok pl -> exists d, In (d, pl) prices.
Proof.
  unfold last_price.
  destruct (rev prices) as [|[d px] rest] eqn:E; intros H; [discriminate|].
  injection H as <-. exists d. apply (proj2 (in_rev _ _)). rewrite E. left. reflexivity.
Qed.

(** When the series ends at or before [d], the lookup at [d] is the last
    price of the series. *)
Lemma price_at_or_before_end (prices : list pricepoint) (d : Z) :
  Forall (fun p => (fst p <= d)%Z) prices ->
  price_at_or_before prices d = last_price prices.
Proof.
  intros H. unfold price_at_or_before, last_price.
  replace (filter (at_or_before d) prices) with prices; [reflexivity|].
  induction H as [|p rest Hp _ IH]; [reflexivity|].
  simpl. unfold at_or_before at 1. apply Z.leb_le in Hp. rewrite Hp. f_equal. exact IH.
Qed.

Lemma accumulate_shares_some (prices : list pricepoint) (l : list cashflow)
  (sh : R) :
  (forall d a, In (d, a) l -> a < 0 ->
     exists p, In p prices /\ (fst p <= d)%Z) ->
  exists s, accumulate_shares prices sh l = Ok s.
Proof.
  revert sh. induction l as [|[d a] rest IH]; intros sh Hcov; simpl; [eauto|].
  destruct (Rlt_dec a 0) as [Ha|Ha].
  - destruct (price_at_or_before_some prices d) as [px Hpx].
    { apply (Hcov d a); [left; reflexivity|exact Ha]. }
    rewrite Hpx. apply IH. intros d' a' Hin. apply (Hcov d' a'). right. exact Hin.
  - apply IH. intros d' a' Hin. apply (Hcov d' a'). right. exact Hin.
Qed.

(** Only the outflow entries take part in the share count. *)
Lemma accumulate_shares_outflows (prices : list pricepoint) (l : list cashflow)
  (sh : R) :
  accumulate_shares prices sh l = accumulate_shares prices sh (outflows l).
Proof.
  revert sh. induction l as [|[d a] rest IH]; intros sh; [reflexivity|].
  unfold outflows. simpl. destruct (Rlt_dec a 0).
  - simpl. destruct (Rlt_dec a 0); [|contradiction].
    destruct (price_at_or_before prices d); [apply IH|reflexivity].
  - apply IH.
Qed.

Lemma accumulate_shares_nonneg (prices : list pricepoint) (l : list cashflow)
  (sh s : R) :
  Forall (fun p => 0 < snd p) prices -> 0 <= sh ->
  accumulate_shares prices sh l = Ok s -> 0 <= s.
Proof.
  intros Hpos. revert sh. induction l as [|[d a] rest IH]; intros sh Hsh; simpl.
  - intros H. injection H as <-. exact Hsh.
  - destruct (Rlt_dec a 0) as [Ha|Ha]; [|apply IH; exact Hsh].
    destruct (price_at_or_before prices d) as [px|e] eqn:Hpx; [|discriminate].
    apply IH.
    destruct (price_at_or_before_in _ _ _ Hpx) as [d' Hin].
    pose proof (proj1 (Forall_forall _ _) Hpos _ Hin) as Hp. simpl in Hp.
    assert (0 <= - a / px)
      by (unfold Rdiv; apply Rmult_le_pos; [lra|left; apply Rinv_0_lt_compat; lra]).
    lra.
Qed.

Lemma outflow_magnitude_app (l1 l2 : list cashflow) :
  outflow_magnitude (l1 ++ l2) = outflow_magnitude l1 + outflow_magnitude l2.
Proof.
  induction l1 as [|c rest IH]; simpl; [lra|]. rewrite IH. lra.
Qed.

Lemma total_invested_app_nonneg (l : list cashflow) (d : Z) (x : R) :
  0 <= x -> total_invested (l ++ [(d, x)]) = total_invested l.
Proof.
  intros Hx. unfold total_invested.
  rewrite !outflow_sum_magnitude, outflow_magnitude_app. simpl.
  destruct (Rlt_dec x 0); [lra|]. lra.
Qed.

Lemma synthetic_cashflows_shape (cfs : list cashflow) (prices : list pricepoint) :
  cfs <> [] -> prices_cover prices cfs ->
  exists shares pl,
    accumulate_shares prices 0 (removelast cfs) = Ok shares /\
    last_price prices = Ok pl /\
    synthetic_cashflows cfs prices =
      Ok (removelast cfs ++ [(fst (last cfs (0%Z, 0%R)), shares * pl)]).
Proof.
  intros Hne [Hpne Hcov].
  destruct (accumulate_shares_some prices (removelast cfs) 0 Hcov) as [sh Hsh].
  destruct (last_price_some prices Hpne) as [pl Hpl].
  exists sh, pl. split; [exact Hsh|]. split; [exact Hpl|].
  destruct cfs as [|[b a] rest]; [congruence|].
  unfold synthetic_cashflows. rewrite Hsh, Hpl.
  rewrite (last_default_irrelevant _ (b, a) (0%Z, 0%R)) by exact Hne.
  reflexivity.
Qed.

(** C1 (counterexample): for the series [(day 0, -1000); (day 5, 50);
    (day 10, 2000)] and prices [(day 0, 100); (day 10, 110)] the synthetic
    series keeps the non-final, non-outflow entry (day 5, 50). *)
Lemma synthetic_keeps_inflows_counterexample :
  synthetic_cashflows [(0%Z, -1000); (5%Z, 50); (10%Z, 2000)]
                      [(0%Z, 100); (10%Z, 110)]
    = Ok [(0%Z, -1000); (5%Z, 50); (10%Z, 1100)] /\
  In (5%Z, 50) [(0%Z, -1000); (5%Z, 50); (10%Z, 1100)] /\ ~ (50 < 0).
Proof.
  split; [|split; [right; left; reflexivity|lra]].
  unfold synthetic_cashflows. simpl.
  decide_R. simpl.
  replace ((0 + - (-1000) / 100) * 110) with 1100 by field. reflexivity.
Qed.

(** C1 (amended): the synthetic series is every non-final entry of the
    input, outflow or not, unchanged and in order, followed by one entry
    at the last date whose amount is the shares bought by the outflows
    times the latest price at or before that date (the last price of the
    downloaded series, which ends at that date). *)
Theorem synthetic_cashflows_spec (cfs : list cashflow)
  (prices : list pricepoint) :
  cfs <> [] -> prices_cover prices cfs ->
  Forall (fun p => (fst p <= fst (last cfs (0%Z, 0%R)))%Z) prices ->
  exists shares px,
    accumulate_shares prices 0 (outflows (removelast cfs)) = Ok shares /\
    price_at_or_before prices (fst (last cfs (0%Z, 0%R))) = Ok px /\
    synthetic_cashflows cfs prices =
      Ok (removelast cfs ++ [(fst (last cfs (0%Z, 0%R)), shares * px)]).
Proof.
  intros Hne Hcov Hend.
  destruct (synthetic_cashflows_shape cfs prices Hne Hcov)
    as [sh [pl [Hsh [Hpl Hsyn]]]].
  exists sh, pl. repeat split.
  - rewrite <- accumulate_shares_outflows. exact Hsh.
  - rewrite price_at_or_before_end by exact Hend. exact Hpl.
  - exact Hsyn.
Qed.

Lemma synthetic_cashflows_spec_witness :
  exists shares px,
    accumulate_shares [(0%Z, 100); (10%Z, 110)] 0
      (outflows (removelast [(0%Z, -1000); (5%Z, 50); (10%Z, 2000)]))
      = Ok shares /\
    price_at_or_before [(0%Z, 100); (10%Z, 110)]
      (fst (last [(0%Z, -1000); (5%Z, 50); (10%Z, 2000)] (0%Z, 0%R))) = Ok px /\
    synthetic_cashflows [(0%Z, -1000); (5%Z, 50); (10%Z, 2000)]
                        [(0%Z, 100); (10%Z, 110)] =
      Ok (removelast [(0%Z, -1000); (5%Z, 50); (10%Z, 2000)] ++
          [(fst (last [(0%Z, -1000); (5%Z, 50); (10%Z, 2000)] (0%Z, 0%R)),
            shares * px)]).
Proof.
  apply synthetic_cashflows_spec.
  - discriminate.
  - split; [discriminate|].
    intros d a Hin Ha. exists (0%Z, 100). split; [left; reflexivity|].
    simpl in Hin. destruct Hin as [H|[H|[]]]; injection H as <- <-; simpl; lia.
  - repeat constructor; simpl; lia.
Defined.

(** C10: the synthetic series keeps every non-final entry of the input
    verbatim and in order, non-negative ones included, and adds one final
    entry; it has the input's length, its final date is the input's last
    date, and only the outflows enter the share count behind the final
    amount. *)
Theorem synthetic_cashflows_keeps_entries (cfs : list cashflow)
  (prices : list pricepoint) :
  cfs <> [] -> prices_cover prices cfs ->
  exists syn,
    synthetic_cashflows cfs prices = Ok syn /\
    syn = removelast cfs ++ [last syn (0%Z, 0%R)] /\
    length syn = length cfs /\
    fst (last syn (0%Z, 0%R)) = fst (last cfs (0%Z, 0%R)) /\
    exists shares pl,
      accumulate_shares prices 0 (outflows (removelast cfs)) = Ok shares /\
      last_price prices = Ok pl /\
      snd (last syn (0%Z, 0%R)) = shares * pl.
Proof.
  intros Hne Hcov.
  destruct (synthetic_cashflows_shape cfs prices Hne Hcov)
    as [sh [pl [Hsh [Hpl Hsyn]]]].
  eexists. split; [exact Hsyn|].
  rewrite last_last. split; [reflexivity|]. split.
  - pose proof (f_equal (@length _) (app_removelast_last (0%Z, 0%R) Hne))
      as HL.
    rewrite length_app in HL. simpl in HL.
    rewrite length_app. simpl. lia.
  - split; [reflexivity|].
    exists sh, pl. repeat split; [|exact Hpl].
    rewrite <- accumulate_shares_outflows. exact Hsh.
Qed.

Lemma synthetic_cashflows_keeps_entries_witness :
  exists syn,
    synthetic_cashflows [(0%Z, -1000); (5%Z, 50); (10%Z, 2000)]
                        [(0%Z, 100); (10%Z, 110)] = Ok syn /\
    syn = removelast [(0%Z, -1000); (5%Z, 50); (10%Z, 2000)] ++
          [last syn (0%Z, 0%R)] /\
    length syn = length [(0%Z, -1000); (5%Z, 50); (10%Z, 2000)] /\
    fst (last syn (0%Z, 0%R)) =
      fst (last [(0%Z, -1000); (5%Z, 50); (10%Z, 2000)] (0%Z, 0%R)) /\
    exists shares pl,
      accumulate_shares [(0%Z, 100); (10%Z, 110)] 0
        (outflows (removelast [(0%Z, -1000); (5%Z, 50); (10%Z, 2000)]))
        = Ok shares /\
      last_price [(0%Z, 100); (10%Z, 110)] = Ok pl /\
      snd (last syn (0%Z, 0%R)) = shares * pl.
Proof.
  apply synthetic_cashflows_keeps_entries.
  - discriminate.
  - split; [discriminate|].
    intros d a Hin Ha. exists (0%Z, 100). split; [left; reflexivity|].
    simpl in Hin. destruct Hin as [H|[H|[]]]; injection H as <- <-; simpl; lia.
Defined.

(** C7: when every non-final entry is an outflow (and, as for every
    series, the final valuation is non-negative and prices are positive),
    the synthetic series has exactly the original total invested. *)
Theorem synthetic_total_invested (cfs : list cashflow)
  (prices : list pricepoint) :
  cfs <> [] ->
  Forall (fun c => snd c < 0) (removelast cfs) ->
  0 <= snd (last cfs (0%Z, 0%R)) ->
  Forall (fun p => 0 < snd p) prices ->
  prices_cover prices cfs ->
  exists syn,
    synthetic_cashflows cfs prices = Ok syn /\
    total_invested syn = total_invested cfs.
Proof.
  intros Hne _ Hval Hpos Hcov.
  destruct (synthetic_cashflows_shape cfs prices Hne Hcov)
    as [sh [pl [Hsh [Hpl Hsyn]]]].
  exists (removelast cfs ++ [(fst (last cfs (0%Z, 0%R)), sh * pl)]).
  split; [exact Hsyn|].
  assert (Hsh0 : 0 <= sh)
    by (apply (accumulate_shares_nonneg prices (removelast cfs) 0 sh Hpos);
        [lra|exact Hsh]).
  assert (Hpl0 : 0 < pl).
  { destruct (last_price_in _ _ Hpl) as [d Hin].
    exact (proj1 (Forall_forall _ _) Hpos _ Hin). }
  rewrite total_invested_app_nonneg by (apply Rmult_le_pos; lra).
  rewrite (app_removelast_last (0%Z, 0%R) Hne) at 2.
  destruct (last cfs (0%Z, 0%R)) as [d x] eqn:E. simpl in Hval.
  rewrite total_invested_app_nonneg by exact Hval. reflexivity.
Qed.

Lemma synthetic_total_invested_witness :
  exists syn,
    synthetic_cashflows [(0%Z, -500); (10%Z, -500); (20%Z, 2000)]
                        [(0%Z, 100); (10%Z, 200); (20%Z, 250)] = Ok syn /\
    total_invested syn =
      total_invested [(0%Z, -500); (10%Z, -500); (20%Z, 2000)].
Proof.
  apply synthetic_total_invested.
  - discriminate.
  - simpl. repeat constructor; simpl; lra.
  - simpl. lra.
  - repeat constructor; simpl; lra.
  - split; [discriminate|].
    intros d a Hin Ha. exists (0%Z, 100). split; [left; reflexivity|].
    simpl in Hin. destruct Hin as [H|[H|[]]]; injection H as <- <-; simpl; lia.
Defined.

(** ** Further properties of the code *)

Lemma pow2_40_inv_pos : 0 < / IZR (2 ^ 40).
Proof. apply Rinv_0_lt_compat, IZR_lt. vm_compute. reflexivity. Qed.

Lemma pow2_1000_inv_le_1 : / IZR (2 ^ 1000) <= 1.
Proof.
  rewrite <- Rinv_1. apply Rinv_le_contravar; [lra|].
  apply IZR_le. vm_compute. easy.
Qed.

Lemma gain_ratio_in_range (v : R) : gain_ratio v -> in_float_range v.
Proof.
  intros [Hl Hh]. apply in_float_range_between. unfold clear_of_range_ends.
  pose proof pow2_40_inv_pos. pose proof pow2_1000_inv_le_1.
  rewrite Rabs_right by lra. lra.
Qed.


(** For a positive start value and a forward period whose power is in the
    float range, lump_cagr is the float ((end/start) ** (1/years)) - 1. *)
Lemma lump_cagr_forward (s e : R) (d1 d2 : Z) :
  0 < s -> 0 < e -> (d1 < d2)%Z -> in_float_range (cagr_power s e d1 d2) ->
  lump_cagr s e d1 d2 = Ok (Fl (cagr_power s e d1 d2 - 1)).
Proof.
  intros Hs He Hd Hr. unfold lump_cagr.
  destruct (Qeq_dec _ 0%Q) as [H|_].
  { apply (proj1 (years_zero_iff _)) in H. lia. }
  simpl. destruct (Req_EM_T s 0); [lra|].
  unfold py_pow. destruct (Rlt_dec 0 (e / s)) as [_|H].
  - rewrite py_pow_result_in_range by exact Hr. reflexivity.
  - exfalso. apply H. unfold Rdiv. apply Rmult_lt_0_compat; [lra|].
    apply Rinv_0_lt_compat. lra.
Qed.

(** A quotient that is positive has a numerator of the denominator's sign. *)
Lemma pos_of_ratio (s e : R) : 0 < s -> 0 < e / s -> 0 < e.
Proof.
  intros Hs Hq. replace e with (e / s * s) by (field; lra).
  apply Rmult_lt_0_compat; assumption.
Qed.

(** The power over exactly one year is the ratio itself. *)
Lemma cagr_power_one_year (s e : R) (d1 d2 : Z) :
  0 < e / s -> (d2 - d1 = 365)%Z -> cagr_power s e d1 d2 = e / s.
Proof.
  intros Hq Hd. unfold cagr_power. rewrite Hd.
  replace (Q2R (/ (inject_Z 365 / inject_Z 365))%Q) with 1
    by (unfold Q2R; simpl; field).
  apply Rpower_1. exact Hq.
Qed.

(** Growth over a forward period, with ratios clear of rounding, gives a
    positive rate. *)
Lemma lump_cagr_gain (s e : R) (d1 d2 : Z) :
  0 < s -> gain_ratio (e / s) -> gain_ratio (cagr_power s e d1 d2) ->
  (d1 < d2)%Z ->
  exists x, lump_cagr s e d1 d2 = Ok (Fl x) /\ 0 < x.
Proof.
  intros Hs Hq Hp Hd. pose proof pow2_40_inv_pos.
  assert (He : 0 < e) by (apply (pos_of_ratio s); [|destruct Hq]; lra).
  rewrite lump_cagr_forward by (assumption || apply gain_ratio_in_range, Hp).
  eexists. split; [reflexivity|]. destruct Hp. lra.
Qed.

(** X1: a gain over a forward period gives a positive lump-sum rate, when
    the ratio end/start and the power are clear of 1 and of the float
    range's ends. *)
Theorem lump_cagr_gain_positive (s e : R) (d1 d2 : Z) :
  0 < s -> gain_ratio (e / s) -> gain_ratio (cagr_power s e d1 d2) ->
  (d1 < d2)%Z ->
  exists x, lump_cagr s e d1 d2 = Ok (Fl x) /\ 0 < x.
Proof. exact (lump_cagr_gain s e d1 d2). Qed.

Lemma lump_cagr_gain_positive_witness :
  exists x, lump_cagr 1000 2000 0 365 = Ok (Fl x) /\ 0 < x.
Proof.
  assert (Hr : gain_ratio (2000 / 1000)).
  { assert (/ IZR (2 ^ 40) <= / 2)
      by (apply Rinv_le_contravar; [lra|apply IZR_le; vm_compute; easy]).
    assert (2 <= IZR (2 ^ 1000)) by (apply IZR_le; vm_compute; easy).
    unfold gain_ratio. split; lra. }
  apply lump_cagr_gain_positive.
  - lra.
  - exact Hr.
  - rewrite cagr_power_one_year; [exact Hr|lra|reflexivity].
  - lia.
Defined.



(** X3: a zero end value gives exactly -1 over a forward period, and
    raises ZeroDivisionError over a backward one. *)
Theorem lump_cagr_zero_end (s : R) (d1 d2 : Z) :
  0 < s -> d1 <> d2 ->
  lump_cagr s 0 d1 d2 =
    if (d1 <? d2)%Z then Ok (Fl (-1)) else Raise ZeroDivisionError.
Proof.
  intros Hs Hd. unfold lump_cagr.
  destruct (Qeq_dec _ 0%Q) as [H|_].
  { apply (proj1 (years_zero_iff _)) in H. lia. }
  simpl. destruct (Req_EM_T s 0); [lra|].
  replace (0 / s) with 0 by (field; lra).
  unfold py_pow. destruct (Rlt_dec 0 0); [lra|].
  destruct (Req_EM_T 0 0) as [_|]; [|congruence].
  destruct (Qlt_le_dec 0 _) as [Hlt|Hle]; destruct (Z.ltb_spec d1 d2).
  - simpl. f_equal. f_equal. lra.
  - exfalso. apply Qinv_lt_0_compat in Hlt.
    rewrite Qinv_involutive in Hlt.
    unfold Qlt, Qdiv, Qmult, Qinv in Hlt; simpl in Hlt. lia.
  - exfalso. assert (Hq : (0 < / (inject_Z (d2 - d1) / inject_Z 365))%Q).
    { apply Qinv_lt_0_compat. unfold Qlt, Qdiv, Qmult, Qinv; simpl. lia. }
    apply (Qlt_not_le _ _ Hq Hle).
  - destruct (Qeq_dec _ 0%Q) as [Hz|]; [|reflexivity].
    exfalso. assert (Hq : (/ (inject_Z (d2 - d1) / inject_Z 365) < 0)%Q).
    { unfold Qlt, Qdiv, Qmult, Qinv; simpl.
      destruct (d2 - d1)%Z eqn:E; simpl; lia. }
    rewrite Hz in Hq. discriminate Hq.
Qed.

Lemma lump_cagr_zero_end_witness :
  lump_cagr 1000 0 0 365 = Ok (Fl (-1)) /\
  lump_cagr 1000 0 365 0 = Raise ZeroDivisionError.
Proof.
  split; [apply (lump_cagr_zero_end 1000 0 365)|
          apply (lump_cagr_zero_end 1000 365 0)]; (lra || discriminate).
Defined.

Lemma outflow_magnitude_no_outflows (l : list cashflow) :
  Forall (fun c => 0 <= snd c) l -> outflow_magnitude l = 0.
Proof.
  induction 1 as [|[d a] rest Ha _ IH]; simpl; [reflexivity|].
  simpl in Ha. destruct (Rlt_dec a 0); [lra|]. lra.
Qed.

(** X4: without any outflow the invested total is 0, so the portfolio CAGR
    of a series spanning more than one day raises ZeroDivisionError. *)
Theorem portfolio_cagr_no_outflows (cfs : list cashflow) (v : R) :
  cfs <> [] -> Forall (fun c => 0 <= snd c) cfs ->
  total_invested cfs = 0 /\
  (fst (hd (0%Z, 0%R) cfs) <> fst (last cfs (0%Z, 0%R)) ->
   portfolio_cagr cfs v = Raise ZeroDivisionError).
Proof.
  intros Hne Hnn.
  assert (Hti : total_invested cfs = 0).
  { unfold total_invested. rewrite outflow_sum_magnitude,
      outflow_magnitude_no_outflows by exact Hnn. lra. }
  split; [exact Hti|]. intros Hd.
  destruct cfs as [|[d0 a0] rest]; [congruence|].
  unfold portfolio_cagr.
  rewrite (last_default_irrelevant _ (d0, a0) (0%Z, 0%R)) by exact Hne.
  rewrite Hti. unfold lump_cagr.
  destruct (Qeq_dec _ 0%Q) as [H|_].
  { apply (proj1 (years_zero_iff _)) in H. cbn [hd fst] in Hd. lia. }
  simpl. destruct (Req_EM_T 0 0); [reflexivity|congruence].
Qed.

Lemma portfolio_cagr_no_outflows_witness :
  total_invested [(0%Z, 100); (365%Z, 500)] = 0 /\
  (0%Z <> 365%Z ->
   portfolio_cagr [(0%Z, 100); (365%Z, 500)] 500 = Raise ZeroDivisionError).
Proof.
  apply portfolio_cagr_no_outflows.
  - discriminate.
  - repeat constructor; simpl; lra.
Defined.

(** X5: a series whose first and last entries share a date has NaN as
    portfolio CAGR. *)
Theorem portfolio_cagr_same_day (cfs : list cashflow) (v : R) :
  cfs <> [] -> fst (hd (0%Z, 0%R) cfs) = fst (last cfs (0%Z, 0%R)) ->
  portfolio_cagr cfs v = Ok NaN.
Proof.
  intros Hne Hd. destruct cfs as [|[d0 a0] rest]; [congruence|].
  unfold portfolio_cagr.
  rewrite (last_default_irrelevant _ (d0, a0) (0%Z, 0%R)) by exact Hne.
  cbn [hd fst] in Hd. rewrite <- Hd. unfold lump_cagr.
  destruct (Qeq_dec _ 0%Q) as [_|H]; [reflexivity|].
  exfalso. apply H. apply years_zero_iff. lia.
Qed.

Lemma portfolio_cagr_same_day_witness :
  portfolio_cagr [(7%Z, -1000); (7%Z, 1200)] 1200 = Ok NaN.
Proof. apply portfolio_cagr_same_day; [discriminate|reflexivity]. Defined.

(** X6: when the benchmark's last price exceeds its first (positive) price
    over a forward span, with the price ratio and the power clear of 1 and
    of the float range's ends, its lump-sum CAGR is a positive float. *)
Theorem sp500_cagr_lumpsum_gain (cfs : list cashflow) (prices : list pricepoint)
  (p0 pl : R) :
  cfs <> [] -> (fst (hd (0%Z, 0%R) cfs) < fst (last cfs (0%Z, 0%R)))%Z ->
  first_price prices = Ok p0 -> last_price prices = Ok pl -> 0 < p0 ->
  gain_ratio (pl / p0) ->
  gain_ratio (cagr_power p0 pl (fst (hd (0%Z, 0%R) cfs)) (fst (last cfs (0%Z, 0%R)))) ->
  exists x, sp500_cagr_lumpsum cfs prices = Ok (Fl x) /\ 0 < x.
Proof.
  intros Hne Hd Hp0 Hpl Hp Hq Hpow. destruct cfs as [|[b a] rest]; [congruence|].
  unfold sp500_cagr_lumpsum.
  rewrite (last_default_irrelevant _ (b, a) (0%Z, 0%R)) by exact Hne.
  rewrite Hp0, Hpl. apply lump_cagr_gain; assumption.
Qed.

Lemma sp500_cagr_lumpsum_gain_witness :
  exists x, sp500_cagr_lumpsum [(0%Z, -1000); (365%Z, 1200)]
              [(0%Z, 3000); (200%Z, 3100); (365%Z, 3300)] = Ok (Fl x) /\ 0 < x.
Proof.
  assert (Hr : gain_ratio (3300 / 3000)).
  { assert (/ IZR (2 ^ 40) <= / 100)
      by (apply Rinv_le_contravar; [lra|apply IZR_le; vm_compute; easy]).
    assert (2 <= IZR (2 ^ 1000)) by (apply IZR_le; vm_compute; easy).
    unfold gain_ratio. split; lra. }
  apply (sp500_cagr_lumpsum_gain _ _ 3000 3300).
  - discriminate.
  - simpl. lia.
  - reflexivity.
  - reflexivity.
  - lra.
  - exact Hr.
  - simpl. rewrite cagr_power_one_year; [exact Hr|lra|reflexivity].
Defined.

(** X7: an empty downloaded price series makes the benchmark CAGR raise
    IndexError. *)
Theorem sp500_cagr_lumpsum_no_prices (cfs : list cashflow) :
  cfs <> [] -> sp500_cagr_lumpsum cfs [] = Raise IndexError.
Proof.
  intros Hne. destruct cfs as [|[b a] rest]; [congruence|]. reflexivity.
Qed.

Lemma sp500_cagr_lumpsum_no_prices_witness :
  sp500_cagr_lumpsum [(0%Z, -1000); (365%Z, 1200)] [] = Raise IndexError.
Proof. apply sp500_cagr_lumpsum_no_prices. discriminate. Defined.

(** ** The main panel's cash-flow list *)

Definition date_le (a b : cashflow) : Prop := (fst a <= fst b)%Z.

Definition on_date (d : Z) (c : cashflow) : bool := (fst c =? d)%Z.

Lemma insert_by_date_sorted (c : cashflow) (l : list cashflow) :
  Sorted date_le l -> Sorted date_le (insert_by_date c l).
Proof.
  induction l as [|h t IH]; intros Hs; simpl.
  - repeat constructor.
  - destruct (Z.ltb_spec (fst c) (fst h)) as [Hlt|Hge].
    + constructor; [exact Hs|]. constructor. unfold date_le. lia.
    + apply Sorted_inv in Hs as [Ht Hh]. constructor; [apply IH; exact Ht|].
      destruct t as [|h2 t2]; simpl.
      * constructor. unfold date_le. lia.
      * inversion Hh as [|? ? Hhh]; subst.
        destruct (fst c <? fst h2)%Z; constructor; unfold date_le in *; lia.
Qed.

Lemma insert_by_date_perm (c : cashflow) (l : list cashflow) :
  Permutation (insert_by_date c l) (c :: l).
Proof.
  induction l as [|h t IH]; simpl; [reflexivity|].
  destruct (fst c <? fst h)%Z; [reflexivity|].
  rewrite IH. apply perm_swap.
Qed.

Lemma filter_on_date_later (d : Z) (l : list cashflow) :
  (forall x, In x l -> (d < fst x)%Z) -> filter (on_date d) l = [].
Proof.
  induction l as [|h t IH]; intros H; simpl; [reflexivity|].
  unfold on_date at 1. destruct (Z.eqb_spec (fst h) d) as [E|_].
  - specialize (H h (or_introl eq_refl)). lia.
  - apply IH. intros x Hx. apply H. right. exact Hx.
Qed.

(** In a date-sorted list, inserting [c] puts it after every entry of its
    own date. *)
Lemma insert_by_date_on_date (c : cashflow) (l : list cashflow) (d : Z) :
  Sorted date_le l ->
  filter (on_date d) (insert_by_date c l) =
    filter (on_date d) l ++ (if on_date d c then [c] else []).
Proof.
  induction l as [|h t IH]; intros Hs.
  - simpl. destruct (on_date d c); reflexivity.
  - cbn [insert_by_date].
    destruct (Z.ltb_spec (fst c) (fst h)) as [Hlt|Hge]; cbv iota.
    + remember (h :: t) as l0.
      simpl. destruct (on_date d c) eqn:Hc.
      * unfold on_date in Hc. apply Z.eqb_eq in Hc.
        rewrite filter_on_date_later; [reflexivity|].
        intros x Hx. subst l0.
        apply Sorted_StronglySorted in Hs;
          [|intros ? ? ?; unfold date_le; lia].
        destruct Hx as [<-|Hx]; [lia|].
        apply StronglySorted_inv in Hs as [_ Hf].
        rewrite Forall_forall in Hf. specialize (Hf x Hx).
        unfold date_le in Hf. lia.
      * rewrite app_nil_r. reflexivity.
    + apply Sorted_inv in Hs as [Ht _]. simpl.
      destruct (on_date d h); [|apply IH; exact Ht].
      simpl. f_equal. apply IH. exact Ht.
Qed.

Lemma sort_by_date_aux (l acc : list cashflow) :
  Sorted date_le acc ->
  Sorted date_le (fold_left (fun acc c => insert_by_date c acc) l acc) /\
  Permutation (fold_left (fun acc c => insert_by_date c acc) l acc) (l ++ acc) /\
  (forall d, filter (on_date d)
               (fold_left (fun acc c => insert_by_date c acc) l acc) =
             filter (on_date d) acc ++ filter (on_date d) l).
Proof.
  revert acc. induction l as [|c l IH]; intros acc Hs; simpl.
  - split; [exact Hs|]. split; [reflexivity|].
    intros d. rewrite app_nil_r. reflexivity.
  - destruct (IH (insert_by_date c acc) (insert_by_date_sorted c acc Hs))
      as [Hs' [Hp Hf]].
    split; [exact Hs'|]. split.
    + rewrite Hp, insert_by_date_perm. symmetry. apply Permutation_middle.
    + intros d. rewrite Hf, insert_by_date_on_date by exact Hs.
      rewrite <- app_assoc. f_equal.
      destruct (on_date d c); reflexivity.
Qed.

Lemma sort_by_date_spec (l : list cashflow) :
  Sorted date_le (sort_by_date l) /\ Permutation (sort_by_date l) l /\
  (forall d, filter (on_date d) (sort_by_date l) = filter (on_date d) l).
Proof.
  destruct (sort_by_date_aux l [] (Sorted_nil _)) as [Hs [Hp Hf]].
  unfold sort_by_date. rewrite app_nil_r in Hp.
  split; [exact Hs|]. split; [exact Hp|]. exact Hf.
Qed.

Lemma build_cashflows_parts (trades : list cashflow) (vd : Z) (pn : R) :
  removelast (build_cashflows trades vd pn) = sort_by_date trades /\
  last (build_cashflows trades vd pn) (0%Z, 0%R) = (vd, pn).
Proof.
  unfold build_cashflows. split; [apply removelast_last|apply last_last].
Qed.

(** X8: the list built by the main panel is the trades sorted by date
    (a permutation of them, same-day trades kept in their file order),
    followed by the valuation entry. *)
Theorem build_cashflows_shape (trades : list cashflow) (vd : Z) (pn : R) :
  let cfs := build_cashflows trades vd pn in
  last cfs (0%Z, 0%R) = (vd, pn) /\
  length cfs = S (length trades) /\
  Sorted date_le (removelast cfs) /\
  Permutation (removelast cfs) trades /\
  (forall d, filter (on_date d) (removelast cfs) = filter (on_date d) trades).
Proof.
  simpl. destruct (build_cashflows_parts trades vd pn) as [Hr Hl].
  rewrite Hr, Hl. destruct (sort_by_date_spec trades) as [Hs [Hp Hf]].
  split; [reflexivity|]. split.
  - unfold build_cashflows. rewrite length_app, (Permutation_length Hp).
    simpl. lia.
  - split; [exact Hs|]. split; [exact Hp|exact Hf].
Qed.

Lemma outflow_magnitude_perm (l1 l2 : list cashflow) :
  Permutation l1 l2 -> outflow_magnitude l1 = outflow_magnitude l2.
Proof.
  induction 1; simpl; try lra.
Qed.

(** X9: with the positive value the main panel requires, the invested
    total it displays is the total invested of the trades alone, whatever
    their order in the file. *)
Theorem build_cashflows_total_invested (trades : list cashflow) (vd : Z)
  (pn : R) :
  0 < pn -> total_invested (build_cashflows trades vd pn) = total_invested trades.
Proof.
  intros Hpn. unfold build_cashflows.
  rewrite total_invested_app_nonneg by lra.
  unfold total_invested. rewrite !outflow_sum_magnitude.
  destruct (sort_by_date_spec trades) as [_ [Hp _]].
  rewrite (outflow_magnitude_perm _ _ Hp). reflexivity.
Qed.

Lemma build_cashflows_total_invested_witness :
  total_invested (build_cashflows [(30%Z, -500); (0%Z, -1000); (10%Z, 200)] 400 2000)
    = total_invested [(30%Z, -500); (0%Z, -1000); (10%Z, 200)].
Proof. apply build_cashflows_total_invested. lra. Defined.

(** X10: the portfolio CAGR shown by the main panel is the lump-sum rate
    from the total invested at the earliest trade date to the entered
    value at the valuation date. *)
Theorem app_portfolio_cagr (trades : list cashflow) (vd : Z) (pn : R) :
  trades <> [] -> 0 < pn ->
  exists c0, In c0 trades /\ (forall c, In c trades -> (fst c0 <= fst c)%Z) /\
    portfolio_cagr (build_cashflows trades vd pn) pn =
      lump_cagr (total_invested trades) pn (fst c0) vd.
Proof.
  intros Hne Hpn.
  destruct (sort_by_date_spec trades) as [Hs [Hp _]].
  destruct (sort_by_date trades) as [|c0 rest] eqn:E.
  { apply Permutation_nil in Hp. congruence. }
  exists c0. split; [|split].
  - apply (Permutation_in _ Hp). left. reflexivity.
  - intros c Hc. apply (Permutation_in _ (Permutation_sym Hp)) in Hc.
    destruct Hc as [<-|Hc]; [lia|].
    apply Sorted_StronglySorted in Hs; [|intros ? ? ?; unfold date_le; lia].
    apply StronglySorted_inv in Hs as [_ Hf].
    rewrite Forall_forall in Hf. exact (Hf c Hc).
  - rewrite <- (build_cashflows_total_invested trades vd pn Hpn).
    pose proof (proj2 (build_cashflows_parts trades vd pn)) as Hl.
    unfold build_cashflows in *. rewrite E in *. destruct c0 as [d0 a0].
    unfold portfolio_cagr. simpl app.
    cbv beta iota.
    rewrite (last_default_irrelevant _ (d0, a0) (0%Z, 0%R)) by discriminate.
    simpl app in Hl. rewrite Hl. reflexivity.
Qed.

Lemma app_portfolio_cagr_witness :
  exists c0, In c0 [(30%Z, -500); (0%Z, -1000)] /\
    (forall c, In c [(30%Z, -500); (0%Z, -1000)] -> (fst c0 <= fst c)%Z) /\
    portfolio_cagr (build_cashflows [(30%Z, -500); (0%Z, -1000)] 400 2000) 2000 =
      lump_cagr (total_invested [(30%Z, -500); (0%Z, -1000)]) 2000 (fst c0) 400.
Proof. apply app_portfolio_cagr; [discriminate|lra]. Defined.

Lemma synthetic_cashflows_snoc (l : list cashflow) (d : Z) (a : R)
  (prices : list pricepoint) :
  synthetic_cashflows (l ++ [(d, a)]) prices =
    match accumulate_shares prices 0 l with
    | Raise e => Raise e
    | Ok shares =>
        match last_price prices with
        | Raise e => Raise e
        | Ok pl => Ok (l ++ [(d, shares * pl)])
        end
    end.
Proof.
  destruct l as [|[d0 a0] l]; [reflexivity|].
  unfold synthetic_cashflows. rewrite <- app_comm_cons. cbv beta iota.
  rewrite app_comm_cons, removelast_last, last_last. reflexivity.
Qed.

(** X11: the synthetic benchmark series built from the main panel's list
    does not depend on the entered portfolio value. *)
Theorem app_synthetic_ignores_value (trades : list cashflow) (vd : Z)
  (p1 p2 : R) (prices : list pricepoint) :
  synthetic_cashflows (build_cashflows trades vd p1) prices =
  synthetic_cashflows (build_cashflows trades vd p2) prices.
Proof.
  unfold build_cashflows. rewrite !synthetic_cashflows_snoc. reflexivity.
Qed.

(** ** xnpv beyond rate 0 *)

Lemma xnpv_sum_same_day (rate : R) (t0 : Z) (l : list cashflow) (acc : R) :
  Forall (fun c => fst c = t0) l ->
  xnpv_sum rate t0 l (Fl acc) = Ok (Fl (fold_left (fun s c => s + snd c) l acc)).
Proof.
  intros H. revert acc. induction H as [|[d cf] rest Hd _ IH]; intros acc;
    [reflexivity|].
  simpl in Hd. subst d. simpl. rewrite Z.sub_diag, py_pow_zero_days. simpl.
  destruct (Req_EM_T 1 0); [lra|]. simpl. rewrite IH. do 3 f_equal. field.
Qed.

(** X12: when every entry shares the first entry's date, xnpv at any rate
    (also at or below -1) is the plain sum of the amounts. *)
Theorem xnpv_same_day_any_rate (rate : R) (t0 : Z) (a : R)
  (rest : list cashflow) :
  Forall (fun c => fst c = t0) rest ->
  xnpv rate ((t0, a) :: rest) = Ok (Fl (amount_sum ((t0, a) :: rest))).
Proof.
  intros H. unfold xnpv, amount_sum.
  rewrite xnpv_sum_same_day by (constructor; [reflexivity|exact H]).
  reflexivity.
Qed.

Lemma xnpv_same_day_any_rate_witness :
  xnpv (-3) [(5%Z, -1000); (5%Z, 1000)] =
    Ok (Fl (amount_sum [(5%Z, -1000); (5%Z, 1000)])).
Proof. apply xnpv_same_day_any_rate. repeat constructor. Defined.

Lemma xnpv_sum_rate_minus_one (t0 : Z) (l : list cashflow) (acc : num) :
  Exists (fun c => fst c <> t0) l ->
  xnpv_sum (-1) t0 l acc = Raise ZeroDivisionError.
Proof.
  intros H. revert acc. induction l as [|[d cf] rest IH]; intros acc;
    [inversion H|].
  simpl. replace (1 + -1) with 0 by lra.
  destruct (Z.eq_dec d t0) as [->|Hne].
  - rewrite Z.sub_diag, py_pow_zero_days. simpl.
    destruct (Req_EM_T 1 0); [lra|]. apply IH.
    inversion H as [? ? Hh|? ? Ht]; subst; [simpl in Hh; congruence|exact Ht].
  - unfold py_pow. destruct (Rlt_dec 0 0); [lra|].
    destruct (Req_EM_T 0 0) as [_|]; [|congruence].
    destruct (Qlt_le_dec 0 _) as [_|Hle].
    + simpl. destruct (Req_EM_T 0 0); [reflexivity|congruence].
    + destruct (Qeq_dec _ 0%Q) as [Hz|]; [|reflexivity].
      apply (proj1 (years_zero_iff _)) in Hz. lia.
Qed.

(** X13: called with the rate -1.0, xnpv raises ZeroDivisionError as soon
    as one entry has a date other than the first entry's. *)
Theorem xnpv_rate_minus_one (t0 : Z) (a : R) (rest : list cashflow) :
  Exists (fun c => fst c <> t0) rest ->
  xnpv (-1) ((t0, a) :: rest) = Raise ZeroDivisionError.
Proof.
  intros H. unfold xnpv. rewrite xnpv_sum_rate_minus_one; [reflexivity|].
  right. exact H.
Qed.

Lemma xnpv_rate_minus_one_witness :
  xnpv (-1) [(0%Z, -1000); (365%Z, 1100)] = Raise ZeroDivisionError.
Proof.
  apply xnpv_rate_minus_one. constructor. simpl. discriminate.
Defined.
